(** * Model100-Firmware: the sketch's keymaps, its macros and its build script

    The repository is one Kaleidoscope sketch, kept in two revisions, and the
    shell script that builds it:

    - [Firmware]: [src/Model100-Firmware.ino], whose macros are [void]
      functions and whose [macroAction] always ends in [return MACRO_NONE];
    - [Part000]: [src/unnamed/part_000], whose macros return [const macro_t *]
      and whose [macroAction] returns what they return;
    - [Build]: the build script that follows the sketch in
      [src/Model100-Firmware.ino].

    The framework itself (Kaleidoscope and its plugins) is not part of the
    repository. What the sketch calls from it is taken as a parameter of the
    code below. *)

From Stdlib Require Import List String Ascii ZArith Bool Arith Lia.
Import ListNotations.
Local Open Scope string_scope.

(** ** Keymap entries *)

(** The modifier a [CTL_T], [ALT_T] or [GUI_T] key stands for while held. *)
Inductive Modifier : Type :=
| Control
| Alt
| Gui.

(** An unsigned 8-bit value ([uint8_t]): the macro id and the keyswitch state. *)
Definition uint8 : Type := Z.

(** One entry of a keymap, as the sketch writes it. [Key_ "Equals"] is
    [Key_Equals]; [___] lets a key press fall through to the previously
    active layer; [XXX] marks the keyswitch as blocked on this layer;
    [DualRole Control "Backspace"] is [CTL_T(Backspace)]; [M id] is the macro
    key [M(id)]. *)
Inductive Key : Type :=
| Key_ (name : string)
| ___
| XXX
| ShiftToLayer (layer : nat)
| LockLayer (layer : nat)
| DualRole (hold : Modifier) (tap : string)
| M (macro_id : uint8).

Definition CTL_T (k : string) : Key := DualRole Control k.
Definition ALT_T (k : string) : Key := DualRole Alt k.
Definition GUI_T (k : string) : Key := DualRole Gui k.

(** [enum { MACRO_VERSION_INFO, MACRO_ARROW }] *)
Definition MACRO_VERSION_INFO : uint8 := 0%Z.
Definition MACRO_ARROW : uint8 := 1%Z.

(** [enum { PRIMARY, SYMBOL, MOUSE }]: layers are 0-indexed. *)
Definition PRIMARY : nat := 0.
Definition SYMBOL : nat := 1.
Definition MOUSE : nat := 2.

(** Aliases for readability. *)
Definition Key_LeftCurly : Key := Key_ "LeftCurlyBracket".
Definition Key_RightCurly : Key := Key_ "RightCurlyBracket".

(** A layer is the argument list of [KEYMAP_STACKED], in the order the sketch
    writes it: the left hand (rows of 7, 7, 6 and 7 keys, four thumb keys,
    the palm key), then the right hand likewise. The macro, which belongs to
    the hardware definition, only moves each of the 64 arguments to its place
    in the key matrix, so a key position is named here by its slot, the index
    of its argument (0 to 63). *)
Definition Layer : Type := list Key.
Definition KEYMAP_STACKED (keys : list Key) : Layer := keys.
Definition KEY_COUNT : nat := 64.

(** The [SYMBOL] and [MOUSE] layers read the same in both revisions. *)
Definition SYMBOL_layer : Layer := KEYMAP_STACKED
  [ Key_ "Backtick"; Key_ "F1"; Key_ "F2"; Key_ "F3"; Key_ "F4"; Key_ "F5"; M MACRO_VERSION_INFO;
    ___; ___; ___; ___; ___; ___; ___;
    ___; ___; ___; ___; ___; ___;
    ___; ___; ___; ___; ___; ___; ___;
    ___; ___; ___; ___;
    ___;

    ___; Key_ "F6"; Key_ "F7"; Key_ "F8"; Key_ "F9"; Key_ "F10"; ___;
    ___; ___; Key_LeftCurly; Key_RightCurly; Key_ "LeftBracket"; Key_ "RightBracket"; ___;
    Key_ "LeftArrow"; Key_ "DownArrow"; Key_ "UpArrow"; Key_ "RightArrow"; ___; ___;
    Key_ "LeftGui"; ___; ___; Key_ "8"; M MACRO_ARROW; ___; ___;
    ___; ___; ___; ___;
    ___ ].

Definition MOUSE_layer : Layer := KEYMAP_STACKED
  [ ___; ___; ___; ___; ___; ___; ___;
    ___; ___; Key_ "mouseUpL"; Key_ "mouseUp"; Key_ "mouseUpR"; ___; ___;
    ___; ___; Key_ "mouseL"; Key_ "mouseDn"; Key_ "mouseR"; ___;
    ___; ___; Key_ "mouseDnL"; ___; Key_ "mouseDnR"; ___; ___;
    ___; ___; ___; ___;
    ___;

    ___; ___; ___; ___; ___; ___; ___;
    ___; Key_ "mouseWarpEnd"; Key_ "mouseWarpNW"; Key_ "mouseWarpNE"; Key_ "mouseBtnL"; Key_ "mouseBtnR"; ___;
    ___; Key_ "mouseWarpSW"; Key_ "mouseWarpSE"; ___; ___; ___;
    ___; ___; ___; ___; ___; ___; ___;
    ___; ___; ___; ___;
    ___ ].

(** The entry of [layer] at [slot] in a [KEYMAPS] table, if the table has one. *)
Definition key_at (keymaps : list Layer) (layer slot : nat) : option Key :=
  match nth_error keymaps layer with
  | Some keys => nth_error keys slot
  | None => None
  end.

(** The two markers of the keymaps. *)
Definition is_transparent (k : Key) : bool :=
  match k with ___ => true | _ => false end.

Definition is_blocked (k : Key) : bool :=
  match k with XXX => true | _ => false end.

(** An entry that gives its key something to do on the layer it stands on: it
    neither falls through ([___]) nor is blocked ([XXX]). On the base layer
    there is no previously active layer to fall through to. *)
Definition has_action (k : Key) : bool :=
  negb (is_transparent k) && negb (is_blocked k).

(** The slots of a layer whose entry satisfies [p], in order. *)
Definition slots_where (p : Key -> bool) (keys : Layer) : list nat :=
  filter (fun slot => match nth_error keys slot with
                      | Some k => p k
                      | None => false
                      end) (seq 0 (List.length keys)).

(** What the invariant asks of a table: every one of the 64 positions holds,
    on [PRIMARY], an entry that gives the key an action. *)
Definition base_layer_resolvable (keymaps : list Layer) : Prop :=
  forall slot, slot < KEY_COUNT ->
    exists k, key_at keymaps PRIMARY slot = Some k /\ has_action k = true.

(** The check of one slot of [PRIMARY]: its entry is not blocked, and it has
    no action exactly when the slot is one of [unbound]. *)
Definition base_slot_ok (keymaps : list Layer) (unbound : list nat) (slot : nat) : bool :=
  match key_at keymaps PRIMARY slot with
  | Some k =>
      negb (is_blocked k) &&
      Bool.eqb (negb (has_action k)) (existsb (Nat.eqb slot) unbound)
  | None => false
  end.

(** ** Typed keystrokes

    A macro's effect is the text it types on the host. A computation of type
    [Typed A] yields a value and the text typed on the way, in order. *)
Definition Typed (A : Type) : Type := (A * string)%type.

Definition ret {A : Type} (a : A) : Typed A := (a, "").

Definition bind {A B : Type} (c : Typed A) (k : A -> Typed B) : Typed B :=
  let '(a, out1) := c in
  let '(b, out2) := k a in
  (b, out1 ++ out2).

Notation "x <- c ;; k" := (bind c (fun x => k))
  (at level 61, c at next level, right associativity).
Notation "c ;; k" := (bind c (fun _ => k))
  (at level 61, right associativity).

Definition value {A : Type} (c : Typed A) : A := fst c.
Definition typed {A : Type} (c : Typed A) : string := snd c.

(** [const macro_t *]: the macro sequence a macro hands back for the Macros
    plugin to play. [MACRO_NONE] is the framework's name for the null one;
    [MACRO_AT addr] is a stored sequence. *)
Inductive macro_ptr : Type :=
| MACRO_NONE
| MACRO_AT (addr : Z).

(** What a call of a function declared to return a value comes to: [Value]
    of what it had done and returned when it reached a [return] statement,
    or [NoValue] when control reached its closing brace without one. The
    language defines no behaviour for such a call, neither a value nor what
    is typed, so [NoValue] carries nothing. *)
Inductive returned (A : Type) : Type :=
| Value (a : A)
| NoValue.
Arguments Value {A} a.
Arguments NoValue {A}.

(** The part of [KeyEvent] the sketch reads. *)
Record KeyEvent : Type := { state : uint8 }.

(** [#define XSTR(s) STR(s)] over [#define STR(s) #s]: the characters of the
    macro's replacement text, as a string literal. *)
Definition STR (s : string) : string := s.
Definition XSTR (s : string) : string := STR s.

(** [PSTR(s)] keeps the literal in program memory; the text is the same. *)
Definition PSTR (s : string) : string := s.

(** [Macros.type(s, ...)]: the plugin types each string as virtual keystrokes,
    in order. The pointer it hands back is the plugin's business and is taken
    as [result]. *)
Definition Macros_type (result : macro_ptr) (strings : list string) : Typed macro_ptr :=
  (result, String.concat "" strings).

(** ** [src/Model100-Firmware.ino] *)

Module Firmware.

Definition PRIMARY_layer : Layer := KEYMAP_STACKED
  [ (* Left Hand *)
    Key_ "Equals"; Key_ "1"; Key_ "2"; Key_ "3"; Key_ "4"; Key_ "5"; Key_ "Escape";
    Key_ "CapsLock"; Key_ "Q"; Key_ "W"; Key_ "E"; Key_ "R"; Key_ "T"; Key_ "LEDEffectNext";
    Key_ "Tab"; Key_ "A"; Key_ "S"; Key_ "D"; Key_ "F"; Key_ "G";
    Key_ "LeftShift"; Key_ "Z"; Key_ "X"; Key_ "C"; Key_ "V"; Key_ "B"; Key_ "Meh";

    CTL_T "Backspace"; ALT_T "Delete"; GUI_T "Home"; Key_ "End";
    ShiftToLayer SYMBOL;

    (* Right Hand *)
    ___; Key_ "6"; Key_ "7"; Key_ "8"; Key_ "9"; Key_ "0"; Key_ "Minus";
    ___; Key_ "Y"; Key_ "U"; Key_ "I"; Key_ "O"; Key_ "P"; Key_ "Backslash";
    Key_ "H"; Key_ "J"; Key_ "K"; Key_ "L"; Key_ "Semicolon"; Key_ "Quote";
    ShiftToLayer MOUSE; Key_ "N"; Key_ "M"; Key_ "Comma"; Key_ "Period"; Key_ "Slash"; Key_ "RightShift";

    Key_ "PageDown"; GUI_T "PageUp"; ALT_T "Enter"; CTL_T "Spacebar";
    ShiftToLayer SYMBOL ].

(** [KEYMAPS([PRIMARY] = ..., [SYMBOL] = ..., [MOUSE] = ...)] *)
Definition KEYMAPS : list Layer := [PRIMARY_layer; SYMBOL_layer; MOUSE_layer].

Section Macros.

(** The framework's test that a keyswitch state is the scan on which the key
    went down, the text the build gives [BUILD_INFORMATION], and the pointer
    [Macros.type] hands back. *)
Variable keyToggledOn : uint8 -> bool.
Variable BUILD_INFORMATION : string.
Variable type_result : macro_ptr.

Definition versionInfoMacro (key_state : uint8) : Typed unit :=
  if keyToggledOn key_state then
    Macros_type type_result [PSTR "Keyboardio Model 100 - Firmware version "] ;;
    Macros_type type_result [PSTR (XSTR BUILD_INFORMATION)] ;;
    ret tt
  else
    ret tt.

Definition arrowOperatorMacro (keyState : uint8) : Typed unit :=
  if keyToggledOn keyState then
    Macros_type type_result [PSTR "->"] ;;
    ret tt
  else
    ret tt.

(** The [switch] has no [default]: an id that is neither case goes straight
    to the [return] after it. *)
Definition macroAction (macro_id : uint8) (event : KeyEvent) : Typed macro_ptr :=
  (if (macro_id =? MACRO_VERSION_INFO)%Z then versionInfoMacro (state event)
   else if (macro_id =? MACRO_ARROW)%Z then arrowOperatorMacro (state event)
   else ret tt) ;;
  ret MACRO_NONE.

End Macros.

End Firmware.

(** ** [src/unnamed/part_000] *)

Module Part000.

Definition PRIMARY_layer : Layer := KEYMAP_STACKED
  [ (* Left Hand *)
    Key_ "Equals"; Key_ "1"; Key_ "2"; Key_ "3"; Key_ "4"; Key_ "5"; Key_ "Escape";
    Key_ "CapsLock"; Key_ "Q"; Key_ "W"; Key_ "E"; Key_ "R"; Key_ "T"; ___;
    Key_ "Tab"; Key_ "A"; Key_ "S"; Key_ "D"; Key_ "F"; Key_ "G";
    Key_ "LeftShift"; Key_ "Z"; Key_ "X"; Key_ "C"; Key_ "V"; Key_ "B"; Key_ "Meh";

    CTL_T "Backspace"; ALT_T "Delete"; GUI_T "Home"; Key_ "End";
    ShiftToLayer SYMBOL;

    (* Right Hand *)
    ___; Key_ "6"; Key_ "7"; Key_ "8"; Key_ "9"; Key_ "0"; Key_ "Minus";
    ___; Key_ "Y"; Key_ "U"; Key_ "I"; Key_ "O"; Key_ "P"; Key_ "Backslash";
    Key_ "H"; Key_ "J"; Key_ "K"; Key_ "L"; Key_ "Semicolon"; Key_ "Quote";
    ShiftToLayer MOUSE; Key_ "N"; Key_ "M"; Key_ "Comma"; Key_ "Period"; Key_ "Slash"; Key_ "RightShift";

    Key_ "PageDown"; GUI_T "PageUp"; ALT_T "Enter"; CTL_T "Spacebar";
    ShiftToLayer SYMBOL ].

Definition KEYMAPS : list Layer := [PRIMARY_layer; SYMBOL_layer; MOUSE_layer].

Section Macros.

Variable keyToggledOn : uint8 -> bool.
Variable BUILD_INFORMATION : string.
Variable type_result : macro_ptr.

(** The only [return] stands inside the [if]; with the test false, control
    reaches the closing brace. *)
Definition versionInfoMacro (key_state : uint8) : returned (Typed macro_ptr) :=
  if keyToggledOn key_state then
    Value (Macros_type type_result
             [PSTR "Keyboardio Model 100 - Firmware version ";
              PSTR (XSTR BUILD_INFORMATION)])
  else
    NoValue.

Definition arrowOperatorMacro (keyState : uint8) : returned (Typed macro_ptr) :=
  if keyToggledOn keyState then
    Value (Macros_type type_result [PSTR "->"])
  else
    NoValue.

(** Each case returns what its macro returned; the [break] after it is never
    reached. *)
Definition macroAction (macro_id : uint8) (event : KeyEvent) : returned (Typed macro_ptr) :=
  if (macro_id =? MACRO_VERSION_INFO)%Z then versionInfoMacro (state event)
  else if (macro_id =? MACRO_ARROW)%Z then arrowOperatorMacro (state event)
  else Value (ret MACRO_NONE).

End Macros.

End Part000.

(** ** The build script *)

Module Build.

(** A directory as the script finds it: what [git describe] prints there
    (without the final newline; nothing when git cannot name the commit),
    the exit status of [git diff-index --quiet HEAD --] there (0 when the
    tree does not differ from HEAD), and the names of its files in the order
    the shell lists them. *)
Record WorkTree : Type := {
  git_describe : string;
  git_diff_index : nat;
  names : list string
}.

Definition TAB : ascii := ascii_of_nat 9.
Definition NEWLINE : ascii := ascii_of_nat 10.
Definition BACKSLASH : ascii := ascii_of_nat 92.

(** The characters the shell splits an unquoted expansion at. *)
Definition is_blank (c : ascii) : bool :=
  Ascii.eqb c " "%char || Ascii.eqb c TAB || Ascii.eqb c NEWLINE.

(** The pattern characters read below, and the ones that are not. *)
Definition is_wildcard (c : ascii) : bool :=
  Ascii.eqb c "*"%char || Ascii.eqb c "?"%char.

Definition is_unread (c : ascii) : bool :=
  Ascii.eqb c "["%char || Ascii.eqb c BACKSLASH.

Fixpoint any_char (p : ascii -> bool) (s : string) : bool :=
  match s with
  | EmptyString => false
  | String c rest => p c || any_char p rest
  end.

(** The fields of an unquoted expansion: the runs of characters between
    blanks. [current] is the field being read. *)
Fixpoint fields_from (s current : string) : list string :=
  match s with
  | EmptyString => if String.eqb current "" then [] else [current]
  | String c rest =>
      if is_blank c then
        if String.eqb current "" then fields_from rest ""
        else current :: fields_from rest ""
      else fields_from rest (current ++ String c "")
  end.

(** Whether a file name matches a pattern: a star stands for any run of
    characters, a question mark for any one character. *)
Fixpoint glob_match (pattern name : string) : bool :=
  match pattern with
  | EmptyString => String.eqb name ""
  | String c pattern' =>
      if Ascii.eqb c "*"%char then
        (fix from (name : string) : bool :=
           glob_match pattern' name ||
           match name with
           | EmptyString => false
           | String _ name' => from name'
           end) name
      else
        match name with
        | EmptyString => false
        | String d name' =>
            (Ascii.eqb c "?"%char || Ascii.eqb c d) && glob_match pattern' name'
        end
  end.

(** A name that begins with a dot is matched only by a pattern that begins
    with one. *)
Definition dotted (s : string) : bool :=
  match s with
  | String c _ => Ascii.eqb c "."%char
  | EmptyString => false
  end.

(** The file names of a directory that a pattern expands to. *)
Definition expansion (names : list string) (pattern : string) : list string :=
  filter (fun name => (negb (dotted name) || dotted pattern) && glob_match pattern name)
         names.

(** What one field becomes: a field with a wildcard is replaced by the file
    names it matches, and left as it is when it matches none. *)
Definition expand_field (names : list string) (field : string) : list string :=
  if any_char is_wildcard field then
    match expansion names field with
    | [] => [field]
    | found => found
    end
  else [field].

(** [echo $version], the variable not quoted: the value is split into
    fields, each field undergoes pathname expansion in the current
    directory, and [echo] prints the resulting words with one space between
    them. A value with a bracket or a backslash in it is not read: [None]. *)
Definition echo_unquoted (names : list string) (value : string) : option string :=
  if any_char is_unread value then None
  else Some (String.concat " " (flat_map (expand_field names) (fields_from value ""))).

(** [function version()], called from the directory [cwd] with a directory
    to change to. [target] is the directory [cd $1] arrives in, or [None]
    when the [cd] fails; the function goes on either way, in the directory
    it is in. The star is appended when the exit status of
    [git diff-index] is not 0. *)
Definition version (cwd : WorkTree) (target : option WorkTree) : option string :=
  let dir := match target with Some d => d | None => cwd end in
  let version := git_describe dir in
  let version :=
    if Nat.eqb (git_diff_index dir) 0 then version else version ++ "*" in
  echo_unquoted (names dir) version.

(** The script proper, started in the directory [cwd] of the keymap:
    [kaleidoscope_version=$( version $KALEIDOSCOPE_DIR )],
    [keymap_version=$( version . )] and
    [version="${kaleidoscope_version}::${keymap_version}"]. Each call of
    [version] runs in a subshell of its own, so its [cd] does not last. *)
Definition build_version (cwd : WorkTree) (KALEIDOSCOPE_DIR : option WorkTree)
    : option string :=
  match version cwd KALEIDOSCOPE_DIR, version cwd (Some cwd) with
  | Some kaleidoscope_version, Some keymap_version =>
      Some (kaleidoscope_version ++ "::" ++ keymap_version)
  | _, _ => None
  end.

(** The version string as the specification words it: each half is its
    revision descriptor with a star after it exactly when its tree is dirty,
    and the halves are joined by two colons. *)
Definition spec_half (descriptor : string) (dirty : bool) : string :=
  descriptor ++ (if dirty then "*" else "").

Definition spec_version_string
  (framework_version : string) (framework_dirty : bool)
  (config_version : string) (config_dirty : bool) : string :=
  spec_half framework_version framework_dirty ++ "::" ++
  spec_half config_version config_dirty.

(** Whether the star is appended in a directory. *)
Definition starred (dir : WorkTree) : bool := negb (Nat.eqb (git_diff_index dir) 0).

(** A name git can print: no blank, no pattern character, no colon. (Git
    allows none of these in the name of a tag.) *)
Definition is_mark (c : ascii) : bool :=
  Ascii.eqb c "*"%char || Ascii.eqb c ":"%char.

Definition git_name (s : string) : bool :=
  negb (any_char (fun c => is_blank c || is_wildcard c || is_unread c || is_mark c) s).

(** A directory in which [echo $version] prints the value as it is: the
    name is one git can print, and when the star is appended no file name
    of the directory matches the starred name. *)
Definition prints_unchanged (dir : WorkTree) : bool :=
  git_name (git_describe dir) &&
  (negb (starred dir) ||
   match expansion (names dir) (git_describe dir ++ "*") with
   | [] => true
   | _ => false
   end).

(** Directories to run the script in. A keymap with uncommitted changes and
    no tag for git to describe it by; one tagged v2.1, with uncommitted
    changes, that holds a file of notes on that version; one like it
    without that file; and a framework tree without changes. *)
Definition untagged_dirty_keymap : WorkTree :=
  {| git_describe := "";
     git_diff_index := 1;
     names := [".git"; "Model100-Firmware.ino"; "build.sh"] |}.

Definition dirty_keymap_with_notes : WorkTree :=
  {| git_describe := "v2.1";
     git_diff_index := 1;
     names := [".git"; "Model100-Firmware.ino"; "build.sh"; "v2.1-notes.md"] |}.

Definition dirty_keymap : WorkTree :=
  {| git_describe := "v2.1";
     git_diff_index := 1;
     names := [".git"; "Model100-Firmware.ino"; "build.sh"] |}.

Definition clean_kaleidoscope : WorkTree :=
  {| git_describe := "v1.99.8-12-gabc1234";
     git_diff_index := 0;
     names := [".git"; "Makefile"; "README.md"; "src"] |}.

End Build.

(** ** Keyswitch states *)

Module Keyswitch.

(** Modelled from the spec: [keyToggledOn] is a macro of the framework's
    keyswitch-state header, which is not under src/. The spec gives the
    triggering key event three states, toggled-on, held and toggled-off; they
    are read here off two flags of the state byte, pressed at this scan
    (bit 1) and pressed at the previous scan (bit 0). The sketch's code above
    takes the test as a parameter; this reading of it serves to name concrete
    states. *)
Definition keyIsPressed (keyState : uint8) : bool := Z.testbit keyState 1.
Definition keyWasPressed (keyState : uint8) : bool := Z.testbit keyState 0.

(** Modelled from the spec: toggled-on, the key is down at this scan and was
    not at the previous one. *)
Definition keyToggledOn (keyState : uint8) : bool :=
  keyIsPressed keyState && negb (keyWasPressed keyState).

(** Modelled from the spec: held, the key is down at both scans. *)
Definition keyIsHeld (keyState : uint8) : bool :=
  keyIsPressed keyState && keyWasPressed keyState.

(** Modelled from the spec: toggled-off, the key was down at the previous
    scan and is not at this one. *)
Definition keyToggledOff (keyState : uint8) : bool :=
  keyWasPressed keyState && negb (keyIsPressed keyState).

(** Modelled from the spec: one state byte for each of the three states. *)
Definition TOGGLED_ON : uint8 := 2%Z.
Definition HELD : uint8 := 3%Z.
Definition TOGGLED_OFF : uint8 := 1%Z.

End Keyswitch.

(** ** Layer resolution *)

Module LayerResolver.

(** What a table holds for a layer and a slot; outside the table there is no
    binding. *)
Definition table_entry (keymaps : list Layer) (layer slot : nat) : Key :=
  match key_at keymaps layer slot with
  | Some k => k
  | None => XXX
  end.

Section Resolver.

Context {Position : Type}.

(** The entry each layer holds for each position. *)
Variable layerEntry : nat -> Position -> Key.

(** Modelled from the spec: the layer resolver is the framework's and is not
    under src/, which holds the [KEYMAPS] table it reads. Section 4.1: given
    a position and the layer stack, ordered highest layer first, the scan
    goes from the top of the stack down to the base layer and returns the
    first action that is neither Transparent nor Blocked; Blocked stops the
    scan at its layer; when every layer is Transparent at the position the
    key produces no action. The sketch's own comment reads [___] as falling
    through to the previously active layer and [XXX] as blocked on its
    layer. *)
Fixpoint resolve (S : list nat) (P : Position) : option Key :=
  match S with
  | [] => None
  | layer :: lower =>
      match layerEntry layer P with
      | ___ => resolve lower P
      | XXX => None
      | action => Some action
      end
  end.

(** Every layer of [layers] is Transparent at [P]. *)
Definition transparent_at (P : Position) (layers : list nat) : Prop :=
  Forall (fun layer => layerEntry layer P = ___) layers.

(** Modelled from the spec: the states a dual-role key goes through while it
    is held (section 3), kept by the framework's plugin, which is not under
    src/. *)
Inductive DualRoleKeyState : Type :=
| Idle
| AwaitingResolution (startTime : nat)
| ResolvedPrimary
| ResolvedSecondary.

(** Modelled from the spec: the state of the framework's event processing,
    which is not under src/, as sections 3 and 9 list it: the layer stack,
    the positions held down, and the state of each dual-role key. *)
Record EventProcessor : Type := {
  layerStack : list nat;
  heldPositions : list Position;
  dualRoleKeys : list (Position * DualRoleKeyState)
}.

(** Modelled from the spec: resolving a position in a state of the event
    processing is resolving it against that state's layer stack
    (section 4.1). *)
Definition resolveKey (ep : EventProcessor) (P : Position) : option Key :=
  resolve (layerStack ep) P.

End Resolver.

(** Modelled from the spec: two states of the event processing, which is not
    under src/, over the sketch's slots (sections 3 and 9). In both the
    [SYMBOL] layer is shifted over [PRIMARY]. In the first the left palm key
    (slot 31) is held and the [CTL_T(Backspace)] key (slot 27) awaits its
    resolution; in the second the right palm key (slot 63) and the F1 key are
    held and no dual-role key is. *)
Definition symbol_shifted_left : EventProcessor (Position := nat) :=
  {| layerStack := [SYMBOL; PRIMARY];
     heldPositions := [31; 27];
     dualRoleKeys := [(27, AwaitingResolution 5)] |}.

Definition symbol_shifted_right : EventProcessor (Position := nat) :=
  {| layerStack := [SYMBOL; PRIMARY];
     heldPositions := [63; 1];
     dualRoleKeys := [] |}.

(** A table of two layers over one position, for the Blocked case, which
    the sketch's own tables do not have: layer 1 blocks the position that
    layer 0 binds to the A key. *)
Definition blocked_over_binding (layer : nat) (P : unit) : Key :=
  match layer with
  | 0 => Key_ "A"
  | _ => XXX
  end.

End LayerResolver.

(** ** Every entry of a table *)

(** The elements of a list with their indices, from [start] on. *)
Definition indexed {A : Type} (start : nat) (l : list A) : list (nat * A) :=
  combine (seq start (List.length l)) l.

(** All entries of a [KEYMAPS] table, each with its layer and its slot. *)
Definition all_entries (keymaps : list Layer) : list (nat * nat * Key) :=
  flat_map (fun '(layer, keys) =>
              map (fun '(slot, k) => (layer, slot, k)) (indexed 0 keys))
           (indexed 0 keymaps).

(** ** Calls on the framework's objects

    The sketch's [void] functions do nothing but call methods of the
    framework's objects or assign to their fields; what such a function does
    is the list of those statements, in order. [R3C6] and its like name a
    key by its row and column in the key matrix. *)
Record KeyAddr : Type := { row : nat; col : nat }.

Definition R0C0 : KeyAddr := {| row := 0; col := 0 |}.
Definition R0C6 : KeyAddr := {| row := 0; col := 6 |}.
Definition R2C6 : KeyAddr := {| row := 2; col := 6 |}.
Definition R3C6 : KeyAddr := {| row := 3; col := 6 |}.
Definition R3C7 : KeyAddr := {| row := 3; col := 7 |}.

Definition KeyAddr_eqb (a b : KeyAddr) : bool :=
  Nat.eqb (row a) (row b) && Nat.eqb (col a) (col b).

Inductive Arg : Type :=
| ArgNum (n : Z)
| ArgKey (k : KeyAddr).

Inductive Statement : Type :=
| Call (object method : string) (args : list Arg)
| Assign (object field : string) (value : Z).

(** The object a statement acts on. *)
Definition object_of (s : Statement) : string :=
  match s with
  | Call object _ _ => object
  | Assign object _ _ => object
  end.

(** ** Callbacks, the same in both revisions *)

Module Callbacks.

(** The power management events the handler dispatches: suspend, resume and
    sleep. *)
Inductive Event : Type :=
| Suspend
| Sleep
| Resume.

Definition LEDControl_disable : Statement := Call "LEDControl" "disable" [].
Definition LEDControl_enable : Statement := Call "LEDControl" "enable" [].

(** The [Suspend] case falls through to the [Sleep] case. *)
Definition toggleLedsOnSuspendResume (event : Event) : list Statement :=
  match event with
  | Suspend
  | Sleep => [LEDControl_disable]
  | Resume => [LEDControl_enable]
  end.

Definition hostPowerManagementEventHandler (event : Event) : list Statement :=
  toggleLedsOnSuspendResume event.

(** The statements the handler runs over a sequence of events, one call of
    the handler per event. *)
Definition handle_power_events (events : list Event) : list Statement :=
  flat_map hostPowerManagementEventHandler events.

(** [enum { COMBO_TOGGLE_NKRO_MODE, COMBO_ENTER_TEST_MODE }] *)
Definition COMBO_TOGGLE_NKRO_MODE : nat := 0.
Definition COMBO_ENTER_TEST_MODE : nat := 1.

Definition toggleKeyboardProtocol (combo_index : uint8) : list Statement :=
  [Call "USBQuirks" "toggleKeyboardProtocol" []].

Definition enterHardwareTestMode (combo_index : uint8) : list Statement :=
  [Call "HardwareTestMode" "runTests" []].

(** One element of [USE_MAGIC_COMBOS]. *)
Record MagicCombo : Type := {
  action : uint8 -> list Statement;
  keys : list KeyAddr
}.

Definition loop : list Statement := [Call "Kaleidoscope" "loop" []].

End Callbacks.

(** Whether every key of [a] is a key of [b] too. *)
Definition keys_within (a b : list KeyAddr) : bool :=
  forallb (fun k => existsb (KeyAddr_eqb k) b) a.

(** The objects the statements act on that are not among [registered],
    [Kaleidoscope] itself apart. *)
Definition unregistered_objects (registered : list string) (stmts : list Statement)
    : list string :=
  filter (fun object =>
            negb (String.eqb object "Kaleidoscope") &&
            negb (existsb (String.eqb object) registered))
         (map object_of stmts).

(** An array written with designated initializers, [[i] = x]: each element
    stands at the index its designator names (the last one for an index
    counts), and the array reaches up to the highest index named. *)
Fixpoint designated_upto {A : Type} (inits : list (nat * A)) (n : nat) : list (option A) :=
  match n with
  | 0 => []
  | S m =>
      (designated_upto inits m ++
       [match find (fun '(i, _) => Nat.eqb i m) (rev inits) with
        | Some (_, x) => Some x
        | None => None
        end])%list
  end.

Definition designated {A : Type} (inits : list (nat * A)) : list (option A) :=
  designated_upto inits (fold_right (fun '(i, _) n => Nat.max (S i) n) 0 inits).

(** ** The rest of [src/Model100-Firmware.ino] *)

Module FirmwareConfig.

(** The solid colours, as (red, green, blue). *)
Definition solid_colors : list (string * (Z * Z * Z)) :=
  [ ("solidRed", (160, 0, 0)); ("solidOrange", (140, 70, 0));
    ("solidYellow", (130, 100, 0)); ("solidGreen", (0, 160, 0));
    ("solidBlue", (0, 70, 130)); ("solidIndigo", (0, 0, 170));
    ("solidViolet", (130, 0, 120)) ]%Z.

(** The elements are given in order, without designators. *)
Definition USE_MAGIC_COMBOS : list Callbacks.MagicCombo :=
  [ {| Callbacks.action := Callbacks.toggleKeyboardProtocol;
       Callbacks.keys := [R3C6; R2C6; R3C7] |};
    {| Callbacks.action := Callbacks.enterHardwareTestMode;
       Callbacks.keys := [R3C6; R0C0; R0C6] |} ].

Definition KALEIDOSCOPE_INIT_PLUGINS : list string :=
  [ "BootGreetingEffect";
    "HardwareTestMode";
    "LEDControl";
    "LEDOff";
    "LEDRainbowEffect";
    "LEDRainbowWaveEffect";
    "solidRed"; "solidOrange"; "solidYellow"; "solidGreen"; "solidBlue";
    "solidIndigo"; "solidViolet";
    "LEDBreatheEffect";
    "LEDPaletteTheme";
    "ColormapEffect";
    "Macros";
    "MouseKeys";
    "HostPowerManagement";
    "MagicCombo";
    "USBQuirks";
    "Qukeys";
    "IdleLEDs";
    "PersistentIdleLEDs" ].

Definition setup : list Statement :=
  [ Call "Kaleidoscope" "setup" [];
    Assign "BootGreetingEffect" "hue" 85;
    Call "LEDRainbowEffect" "brightness" [ArgNum 100];
    Call "LEDRainbowWaveEffect" "brightness" [ArgNum 100];
    Call "HardwareTestMode" "setActionKey" [ArgKey R3C6];
    Call "LEDOff" "activate" [] ].

End FirmwareConfig.

(** ** The rest of [src/unnamed/part_000] *)

Module Part000Config.

(** [[COMBO_TOGGLE_NKRO_MODE] = {...}, [COMBO_ENTER_TEST_MODE] = {...}] *)
Definition USE_MAGIC_COMBOS : list (option Callbacks.MagicCombo) :=
  designated
    [ (Callbacks.COMBO_TOGGLE_NKRO_MODE,
       {| Callbacks.action := Callbacks.toggleKeyboardProtocol;
          Callbacks.keys := [R3C6; R2C6; R3C7] |});
      (Callbacks.COMBO_ENTER_TEST_MODE,
       {| Callbacks.action := Callbacks.enterHardwareTestMode;
          Callbacks.keys := [R3C6; R0C0; R0C6] |}) ].

Definition KALEIDOSCOPE_INIT_PLUGINS : list string :=
  [ "BootGreetingEffect";
    "Qukeys";
    "HardwareTestMode";
    "LEDControl";
    "LEDRainbowWaveEffect";
    "ActiveModColorEffect";
    "IdleLEDs";
    "Macros";
    "MouseKeys";
    "HostPowerManagement";
    "MagicCombo";
    "USBQuirks" ].

Definition setup : list Statement :=
  [ Call "Kaleidoscope" "setup" [];
    Assign "BootGreetingEffect" "hue" 85;
    Call "LEDRainbowWaveEffect" "brightness" [ArgNum 100];
    Call "HardwareTestMode" "setActionKey" [ArgKey R3C6];
    Call "LEDOff" "activate" [];
    Call "Qukeys" "setOverlapThreshold" [ArgNum 80] ].

End Part000Config.

(** What holds of every entry with a layer key: a [ShiftToLayer] entry stands on
    [PRIMARY], names one of the two other layers, and that layer has [___]
    at the entry's slot; there is no [LockLayer] entry. *)
Definition shift_key_ok (keymaps : list Layer) (entry : nat * nat * Key) : bool :=
  let '(layer, slot, k) := entry in
  match k with
  | ShiftToLayer target =>
      Nat.eqb layer PRIMARY &&
      (Nat.eqb target SYMBOL || Nat.eqb target MOUSE) &&
      match key_at keymaps target slot with
      | Some ___ => true
      | _ => false
      end
  | LockLayer _ => false
  | _ => true
  end.

(** ** Names in a version string *)


(** * Properties *)

(** ** Strings *)

Lemma append_empty_r (s : string) : s ++ "" = s.
Proof.
  induction s as [|c s IH]; simpl; [reflexivity | now rewrite IH].
Qed.

Lemma length_append (s1 s2 : string) :
  String.length (s1 ++ s2) = String.length s1 + String.length s2.
Proof.
  induction s1 as [|c s1 IH]; simpl; [reflexivity | now rewrite IH].
Qed.

(** ** The base layer of the keymaps *)

Lemma existsb_eqb_In (n : nat) (l : list nat) :
  existsb (Nat.eqb n) l = true <-> In n l.
Proof.
  rewrite existsb_exists. split.
  - intros [m [Hin Heq]]. apply Nat.eqb_eq in Heq. now subst.
  - intros Hin. exists n. split; [assumption | apply Nat.eqb_refl].
Qed.

Lemma base_slot_ok_spec (keymaps : list Layer) (unbound : list nat) (slot : nat) :
  base_slot_ok keymaps unbound slot = true ->
  exists k, key_at keymaps PRIMARY slot = Some k /\
            is_blocked k = false /\
            (has_action k = false <-> In slot unbound).
Proof.
  unfold base_slot_ok. destruct (key_at keymaps PRIMARY slot) as [k|]; [|discriminate].
  intros H. apply andb_true_iff in H. destruct H as [Hb He].
  exists k. split; [reflexivity|]. split.
  - now apply negb_true_iff.
  - apply Bool.eqb_prop in He. rewrite <- existsb_eqb_In, <- He.
    now destruct (has_action k).
Qed.

Lemma all_slots_checked (check : nat -> bool) :
  forallb check (seq 0 KEY_COUNT) = true ->
  forall slot, slot < KEY_COUNT -> check slot = true.
Proof.
  intros H slot Hlt. rewrite forallb_forall in H. apply H.
  apply in_seq. lia.
Qed.

(** The entries of [PRIMARY] without an action, slot by slot: the first key
    of the right hand's first and second rows in both revisions, and the last
    key of the left hand's second row in the second revision. *)
Lemma firmware_primary_unbound :
  slots_where (fun k => negb (has_action k)) Firmware.PRIMARY_layer = [32; 39].
Proof. vm_compute. reflexivity. Qed.

Lemma part000_primary_unbound :
  slots_where (fun k => negb (has_action k)) Part000.PRIMARY_layer = [13; 32; 39].
Proof. vm_compute. reflexivity. Qed.

(** No layer of either revision has a blocked entry. *)
Lemma no_blocked_entry :
  map (slots_where is_blocked) Firmware.KEYMAPS = [[]; []; []] /\
  map (slots_where is_blocked) Part000.KEYMAPS = [[]; []; []].
Proof. split; vm_compute; reflexivity. Qed.

(** The slots left without an action on [PRIMARY] fall through on [SYMBOL]
    and on [MOUSE] as well. *)
Lemma unbound_on_every_layer (layer slot : nat) :
  layer < 3 -> In slot [13; 32; 39] ->
  key_at Part000.KEYMAPS layer slot = Some ___ /\
  (slot <> 13 -> key_at Firmware.KEYMAPS layer slot = Some ___).
Proof.
  intros Hl Hs.
  destruct layer as [|[|[|layer]]]; [| | |lia];
    simpl in Hs; destruct Hs as [<-|[<-|[<-|[]]]];
    (split; [reflexivity | intros Hne; try reflexivity; now elim Hne]).
Qed.

(** C9, as stated, fails: slot 32, the first key of the right hand's top row,
    is one of the 64 positions, its [PRIMARY] entry is [___] in both
    revisions, and [___] is no action; the same slot is [___] on [SYMBOL]
    and [MOUSE] too, so no layer gives the key anything to do. *)
Lemma base_layer_slot_without_action :
  32 < KEY_COUNT /\
  key_at Firmware.KEYMAPS PRIMARY 32 = Some ___ /\
  key_at Part000.KEYMAPS PRIMARY 32 = Some ___ /\
  has_action ___ = false /\
  key_at Firmware.KEYMAPS SYMBOL 32 = Some ___ /\
  key_at Firmware.KEYMAPS MOUSE 32 = Some ___.
Proof.
  split; [unfold KEY_COUNT; lia|].
  repeat split; reflexivity.
Qed.

(** Hence neither table is resolvable on its base layer in the sense of
    [base_layer_resolvable]. *)
Lemma base_layer_not_resolvable :
  ~ base_layer_resolvable Firmware.KEYMAPS /\ ~ base_layer_resolvable Part000.KEYMAPS.
Proof.
  split; intros H; destruct (H 32) as [k [Hk Ha]];
    try (unfold KEY_COUNT; lia);
    vm_compute in Hk; injection Hk as <-; discriminate Ha.
Qed.

(** C9, amended: in both revisions every one of the 64 positions has a
    [PRIMARY] entry and none is blocked ([XXX]); the entry gives the key an
    action except at the slots whose entry is [___], which are 32 and 39 in
    [src/Model100-Firmware.ino] and 13, 32 and 39 in [src/unnamed/part_000]. *)
Theorem base_layer_entries (slot : nat) :
  slot < KEY_COUNT ->
  (exists k, key_at Firmware.KEYMAPS PRIMARY slot = Some k /\
             is_blocked k = false /\
             (has_action k = false <-> In slot [32; 39])) /\
  (exists k, key_at Part000.KEYMAPS PRIMARY slot = Some k /\
             is_blocked k = false /\
             (has_action k = false <-> In slot [13; 32; 39])).
Proof.
  intros Hlt. split; apply base_slot_ok_spec.
  - revert slot Hlt. apply all_slots_checked. vm_compute. reflexivity.
  - revert slot Hlt. apply all_slots_checked. vm_compute. reflexivity.
Qed.

(** The amended statement at slot 32, one of the slots without an action. *)
Lemma base_layer_entries_witness :
  32 < KEY_COUNT /\
  ((exists k, key_at Firmware.KEYMAPS PRIMARY 32 = Some k /\
              is_blocked k = false /\
              (has_action k = false <-> In 32 [32; 39])) /\
   (exists k, key_at Part000.KEYMAPS PRIMARY 32 = Some k /\
              is_blocked k = false /\
              (has_action k = false <-> In 32 [13; 32; 39]))).
Proof.
  split.
  - unfold KEY_COUNT. lia.
  - apply (base_layer_entries 32). unfold KEY_COUNT. lia.
Defined.

(** ** Layer resolution *)

Section LayerScan.

Context {Position : Type}.
Variable layerEntry : nat -> Position -> Key.

Local Abbreviation resolve := (LayerResolver.resolve layerEntry).
Local Abbreviation transparent_at := (LayerResolver.transparent_at layerEntry).

(** One step of the scan, by the entry of the layer on top. *)
Lemma resolve_top (layer : nat) (lower : list nat) (P : Position) :
  resolve (layer :: lower) P =
    if is_transparent (layerEntry layer P) then resolve lower P
    else if is_blocked (layerEntry layer P) then None
    else Some (layerEntry layer P).
Proof.
  simpl. destruct (layerEntry layer P); reflexivity.
Qed.

(** The scan passes the layers that are Transparent at the position. *)
Lemma resolve_skips_transparent (above rest : list nat) (P : Position) :
  transparent_at P above -> resolve (above ++ rest)%list P = resolve rest P.
Proof.
  induction 1 as [|layer above Hl _ IH]; [reflexivity|].
  change ((layer :: above) ++ rest)%list with (layer :: (above ++ rest))%list.
  rewrite resolve_top, Hl. exact IH.
Qed.

Lemma resolve_all_transparent (S : list nat) (P : Position) :
  transparent_at P S -> resolve S P = None.
Proof.
  intros H. rewrite <- (app_nil_r S). now rewrite resolve_skips_transparent.
Qed.

(** It stops at the first layer that is not, with that layer's action... *)
Lemma resolve_first_action (above : list nat) (layer : nat) (below : list nat)
    (P : Position) :
  transparent_at P above ->
  has_action (layerEntry layer P) = true ->
  resolve (above ++ layer :: below)%list P = Some (layerEntry layer P).
Proof.
  intros Ha Hk. rewrite (resolve_skips_transparent above (layer :: below) P Ha).
  rewrite resolve_top. unfold has_action in Hk.
  destruct (is_transparent (layerEntry layer P)); [discriminate|].
  destruct (is_blocked (layerEntry layer P)); [discriminate | reflexivity].
Qed.

(** ... or with nothing when that layer is Blocked, whatever lies below. *)
Lemma resolve_blocked (above : list nat) (layer : nat) (below : list nat)
    (P : Position) :
  transparent_at P above ->
  layerEntry layer P = XXX ->
  resolve (above ++ layer :: below)%list P = None.
Proof.
  intros Ha Hk. rewrite (resolve_skips_transparent above (layer :: below) P Ha).
  now rewrite resolve_top, Hk.
Qed.

(** Where the scan of a stack ends: past the last layer, at a Blocked entry,
    or at an action. *)
Lemma resolve_cases (S : list nat) (P : Position) :
  (transparent_at P S /\ resolve S P = None) \/
  (exists above layer below,
      S = (above ++ layer :: below)%list /\ transparent_at P above /\
      ((layerEntry layer P = XXX /\ resolve S P = None) \/
       (has_action (layerEntry layer P) = true /\
        resolve S P = Some (layerEntry layer P)))).
Proof.
  induction S as [|top lower IH].
  - left. split; [constructor | reflexivity].
  - rewrite resolve_top. destruct (layerEntry top P) eqn:Htop; simpl.
    2: { destruct IH as [[Ht Hn] | (above & layer & below & -> & Ht & Hr)].
         - left. split; [now constructor | assumption].
         - right. exists (top :: above), layer, below.
           split; [reflexivity|]. split; [now constructor | assumption]. }
    all: right; exists [], top, lower; split; [reflexivity|];
      split; [constructor|]; rewrite Htop; auto.
Qed.

Lemma has_action_iff (k : Key) : has_action k = true <-> k <> ___ /\ k <> XXX.
Proof.
  destruct k; simpl; split; try (intros _; split; discriminate);
    try discriminate; intros [H1 H2]; congruence.
Qed.

(** C1: resolving [P] against [S] scans the layers of [S] from the top down.
    The result is an action [a] exactly when some layer of [S] holds [a] at
    [P], [a] is neither Transparent nor Blocked, and every layer above it is
    Transparent at [P]: the first such action. If every layer of [S] is
    Transparent at [P] there is no action. If a layer reached by the scan is
    Blocked at [P] there is no action either, and none whatever layers are
    put below it: no binding of a lower layer shows. *)
Theorem layer_resolution (S : list nat) (P : Position) :
  (forall a : Key,
      resolve S P = Some a <->
      exists above layer below,
        S = (above ++ layer :: below)%list /\ transparent_at P above /\
        layerEntry layer P = a /\ a <> ___ /\ a <> XXX) /\
  (transparent_at P S -> resolve S P = None) /\
  (forall above layer below,
      S = (above ++ layer :: below)%list -> transparent_at P above ->
      layerEntry layer P = XXX ->
      resolve S P = None /\
      forall lower, resolve (above ++ layer :: lower)%list P = None).
Proof.
  split; [|split].
  - intros a. split.
    + intros Hr.
      destruct (resolve_cases S P)
        as [[_ Hn] | (above & layer & below & HS & Ht & [[_ Hn] | [Ha Hs]])];
        try congruence.
      exists above, layer, below. rewrite Hs in Hr. injection Hr as <-.
      apply has_action_iff in Ha. tauto.
    + intros (above & layer & below & -> & Ht & <- & Hne).
      apply resolve_first_action; [assumption | now apply has_action_iff].
  - apply resolve_all_transparent.
  - intros above layer below -> Ht Hb. split.
    + now apply resolve_blocked.
    + intros lower. now apply resolve_blocked.
Qed.

End LayerScan.

(** The three parts of [layer_resolution] at work: on the sketch's table Q
    shows through the Transparent [SYMBOL] entry of its key, and the first
    key of the right hand's top row, Transparent on all three layers, has no
    action; in [blocked_over_binding] the A key of layer 0 does not show
    under the Blocked entry of layer 1. *)
Lemma layer_resolution_witness :
  LayerResolver.resolve (LayerResolver.table_entry Firmware.KEYMAPS) [SYMBOL; PRIMARY] 8
    = Some (Key_ "Q") /\
  LayerResolver.resolve (LayerResolver.table_entry Firmware.KEYMAPS)
      [MOUSE; SYMBOL; PRIMARY] 32 = None /\
  LayerResolver.resolve LayerResolver.blocked_over_binding [1; 0] tt = None.
Proof.
  split; [|split].
  - apply (proj1 (layer_resolution (LayerResolver.table_entry Firmware.KEYMAPS)
                    [SYMBOL; PRIMARY] 8)).
    exists [SYMBOL], PRIMARY, [].
    split; [reflexivity|]. split; [repeat constructor|].
    split; [reflexivity|]. split; discriminate.
  - apply (proj1 (proj2 (layer_resolution (LayerResolver.table_entry Firmware.KEYMAPS)
                           [MOUSE; SYMBOL; PRIMARY] 32))).
    repeat constructor.
  - apply (proj2 (proj2 (layer_resolution LayerResolver.blocked_over_binding
                           [1; 0] tt)) [] 1 [0]).
    + reflexivity.
    + constructor.
    + reflexivity.
Defined.

(** The scan over the sketch's table: with [SYMBOL] shifted over [PRIMARY],
    the second key of the top row is F1, a key that [SYMBOL] leaves
    Transparent keeps its [PRIMARY] binding, and the first key of the right
    hand's top row has no action. *)
Example symbol_layer_F1 :
  LayerResolver.resolve (LayerResolver.table_entry Firmware.KEYMAPS) [SYMBOL; PRIMARY] 1
    = Some (Key_ "F1") /\
  LayerResolver.resolve (LayerResolver.table_entry Firmware.KEYMAPS) [PRIMARY] 1
    = Some (Key_ "1") /\
  LayerResolver.resolve (LayerResolver.table_entry Firmware.KEYMAPS) [SYMBOL; PRIMARY] 8
    = Some (Key_ "Q") /\
  LayerResolver.resolve (LayerResolver.table_entry Firmware.KEYMAPS) [MOUSE; SYMBOL; PRIMARY] 32
    = None.
Proof. repeat split; reflexivity. Qed.

(** The slots that are Transparent on all three layers resolve to no action
    under every stack of those layers. *)
Lemma unbound_slots_never_resolve (S : list nat) (slot : nat) :
  Forall (fun layer => layer < 3) S -> In slot [32; 39] ->
  LayerResolver.resolve (LayerResolver.table_entry Firmware.KEYMAPS) S slot = None /\
  LayerResolver.resolve (LayerResolver.table_entry Part000.KEYMAPS) S slot = None.
Proof.
  intros HS Hslot.
  assert (Hin : In slot [13; 32; 39]) by (simpl in *; tauto).
  assert (Hne : slot <> 13) by (simpl in Hslot; lia).
  split; apply resolve_all_transparent; unfold LayerResolver.transparent_at;
    eapply Forall_impl; try exact HS; intros layer Hl; cbv beta in Hl;
    destruct (unbound_on_every_layer layer slot Hl Hin) as [H1 H2];
    unfold LayerResolver.table_entry; [rewrite (H2 Hne) | rewrite H1]; reflexivity.
Qed.

(** ** No hidden state in layer resolution *)

(** Of the table, a resolution reads the entries of the stack's layers at the
    position and nothing else. *)
Lemma resolve_reads_stack_entries {Position : Type}
    (entry1 entry2 : nat -> Position -> Key) (S : list nat) (P : Position) :
  Forall (fun layer => entry1 layer P = entry2 layer P) S ->
  LayerResolver.resolve entry1 S P = LayerResolver.resolve entry2 S P.
Proof.
  induction 1 as [|layer lower Hl _ IH]; [reflexivity|].
  rewrite !resolve_top, Hl, IH. reflexivity.
Qed.

(** C2: what a position resolves to is fixed by the position, the order of
    the layers on the stack and the entries those layers hold at the
    position. Two states of the event processing, each over a table of its
    own, that agree in these three resolve the position to the same result,
    whatever else differs between them: the layers that are not on the
    stack, the other positions of the table, the held positions, the
    dual-role keys. *)
Theorem resolution_depends_on_stack_only {Position : Type}
    (entry1 entry2 : nat -> Position -> Key)
    (ep1 ep2 : LayerResolver.EventProcessor) (P : Position) :
  LayerResolver.layerStack ep1 = LayerResolver.layerStack ep2 ->
  Forall (fun layer => entry1 layer P = entry2 layer P)
         (LayerResolver.layerStack ep1) ->
  LayerResolver.resolveKey entry1 ep1 P = LayerResolver.resolveKey entry2 ep2 P.
Proof.
  intros Hstack Hentries. unfold LayerResolver.resolveKey.
  rewrite <- Hstack. now apply resolve_reads_stack_entries.
Qed.

(** Two states that differ in everything but the stack, over the tables of
    the two revisions, which differ at another position: the F1 key
    resolves alike in both. *)
Lemma resolution_depends_on_stack_only_witness :
  LayerResolver.layerStack LayerResolver.symbol_shifted_left
    = LayerResolver.layerStack LayerResolver.symbol_shifted_right /\
  Forall (fun layer => LayerResolver.table_entry Firmware.KEYMAPS layer 1
                       = LayerResolver.table_entry Part000.KEYMAPS layer 1)
         (LayerResolver.layerStack LayerResolver.symbol_shifted_left) /\
  LayerResolver.resolveKey (LayerResolver.table_entry Firmware.KEYMAPS)
      LayerResolver.symbol_shifted_left 1
    = LayerResolver.resolveKey (LayerResolver.table_entry Part000.KEYMAPS)
        LayerResolver.symbol_shifted_right 1.
Proof.
  split; [reflexivity|]. split; [repeat constructor|].
  apply (resolution_depends_on_stack_only
           (LayerResolver.table_entry Firmware.KEYMAPS)
           (LayerResolver.table_entry Part000.KEYMAPS)
           LayerResolver.symbol_shifted_left
           LayerResolver.symbol_shifted_right 1).
  - reflexivity.
  - repeat constructor.
Defined.

(** Each of the three is needed. The same two layers in the other order
    resolve the F1 key differently; so do the same stack and position over
    tables that differ in the entry of a stacked layer at that position
    (the last key of the left hand's second row, in the two revisions). *)
Example stack_order_matters :
  LayerResolver.resolve (LayerResolver.table_entry Firmware.KEYMAPS) [SYMBOL; PRIMARY] 1
    = Some (Key_ "F1") /\
  LayerResolver.resolve (LayerResolver.table_entry Firmware.KEYMAPS) [PRIMARY; SYMBOL] 1
    = Some (Key_ "1") /\
  LayerResolver.resolve (LayerResolver.table_entry Firmware.KEYMAPS) [SYMBOL; PRIMARY] 13
    = Some (Key_ "LEDEffectNext") /\
  LayerResolver.resolve (LayerResolver.table_entry Part000.KEYMAPS) [SYMBOL; PRIMARY] 13
    = None.
Proof. repeat split; reflexivity. Qed.

(** ** The macros *)

Section MacroCode.

Variable keyToggledOn : uint8 -> bool.
Variable BUILD_INFORMATION : string.
Variable type_result : macro_ptr.

(** What each macro types and hands back, in the first revision... *)
Lemma firmware_versionInfoMacro (key_state : uint8) :
  Firmware.versionInfoMacro keyToggledOn BUILD_INFORMATION type_result key_state =
    (tt, if keyToggledOn key_state
         then "Keyboardio Model 100 - Firmware version " ++ BUILD_INFORMATION
         else "").
Proof.
  unfold Firmware.versionInfoMacro. destruct (keyToggledOn key_state); [|reflexivity].
  cbn. now rewrite append_empty_r.
Qed.

Lemma firmware_arrowOperatorMacro (keyState : uint8) :
  Firmware.arrowOperatorMacro keyToggledOn type_result keyState =
    (tt, if keyToggledOn keyState then "->" else "").
Proof.
  unfold Firmware.arrowOperatorMacro. destruct (keyToggledOn keyState); reflexivity.
Qed.

(** ... and in the second, where a state that is not toggled-on leads to
    the closing brace. *)
Lemma part000_versionInfoMacro (key_state : uint8) :
  Part000.versionInfoMacro keyToggledOn BUILD_INFORMATION type_result key_state =
    if keyToggledOn key_state
    then Value (type_result,
                "Keyboardio Model 100 - Firmware version " ++ BUILD_INFORMATION)
    else NoValue.
Proof.
  unfold Part000.versionInfoMacro. destruct (keyToggledOn key_state); reflexivity.
Qed.

Lemma part000_arrowOperatorMacro (keyState : uint8) :
  Part000.arrowOperatorMacro keyToggledOn type_result keyState =
    if keyToggledOn keyState then Value (type_result, "->") else NoValue.
Proof.
  unfold Part000.arrowOperatorMacro. destruct (keyToggledOn keyState); reflexivity.
Qed.

(** The dispatch, case by case. *)
Lemma firmware_macroAction (macro_id : uint8) (event : KeyEvent) :
  Firmware.macroAction keyToggledOn BUILD_INFORMATION type_result macro_id event =
    (MACRO_NONE,
     if (macro_id =? MACRO_VERSION_INFO)%Z then
       typed (Firmware.versionInfoMacro keyToggledOn BUILD_INFORMATION type_result
                (state event))
     else if (macro_id =? MACRO_ARROW)%Z then
       typed (Firmware.arrowOperatorMacro keyToggledOn type_result (state event))
     else "").
Proof.
  unfold Firmware.macroAction.
  destruct (macro_id =? MACRO_VERSION_INFO)%Z.
  - rewrite firmware_versionInfoMacro. cbn. now rewrite append_empty_r.
  - destruct (macro_id =? MACRO_ARROW)%Z; [|reflexivity].
    rewrite firmware_arrowOperatorMacro. cbn. now rewrite append_empty_r.
Qed.

(** C6: in [src/Model100-Firmware.ino] the version macro, invoked with a key
    event, types "Keyboardio Model 100 - Firmware version " followed by the
    build string, and the arrow macro types "->", when the event's state is
    a toggled-on one; for every other state (held, toggled-off) they type
    nothing. In [src/unnamed/part_000] the macros type the same texts on a
    toggled-on state, and on every other state the call reaches the end of
    the macro without a [return]: what is typed then is not defined. *)
Theorem macro_output (event : KeyEvent) :
  typed (Firmware.macroAction keyToggledOn BUILD_INFORMATION type_result
           MACRO_VERSION_INFO event)
    = (if keyToggledOn (state event)
       then "Keyboardio Model 100 - Firmware version " ++ BUILD_INFORMATION
       else "") /\
  typed (Firmware.macroAction keyToggledOn BUILD_INFORMATION type_result
           MACRO_ARROW event)
    = (if keyToggledOn (state event) then "->" else "") /\
  Part000.macroAction keyToggledOn BUILD_INFORMATION type_result
    MACRO_VERSION_INFO event
    = (if keyToggledOn (state event)
       then Value (type_result,
                   "Keyboardio Model 100 - Firmware version " ++ BUILD_INFORMATION)
       else NoValue) /\
  Part000.macroAction keyToggledOn BUILD_INFORMATION type_result
    MACRO_ARROW event
    = (if keyToggledOn (state event) then Value (type_result, "->") else NoValue).
Proof.
  split; [|split; [|split]].
  - rewrite firmware_macroAction. cbn. now rewrite firmware_versionInfoMacro.
  - rewrite firmware_macroAction. cbn. now rewrite firmware_arrowOperatorMacro.
  - unfold Part000.macroAction. cbn. apply part000_versionInfoMacro.
  - unfold Part000.macroAction. cbn. apply part000_arrowOperatorMacro.
Qed.

(** Both texts are non-empty, so on a toggled-on state, and in the first
    revision only then, a macro types something; the second revision
    returns, having typed something, exactly on a toggled-on state. *)
Lemma macro_types_iff_toggled_on (macro_id : uint8) (event : KeyEvent) :
  macro_id = MACRO_VERSION_INFO \/ macro_id = MACRO_ARROW ->
  (typed (Firmware.macroAction keyToggledOn BUILD_INFORMATION type_result
            macro_id event) <> ""
     <-> keyToggledOn (state event) = true) /\
  ((exists r text,
       Part000.macroAction keyToggledOn BUILD_INFORMATION type_result
         macro_id event = Value (r, text) /\ text <> "")
     <-> keyToggledOn (state event) = true).
Proof.
  intros [-> | ->].
  - rewrite firmware_macroAction. unfold Part000.macroAction. cbn.
    rewrite firmware_versionInfoMacro, part000_versionInfoMacro.
    destruct (keyToggledOn (state event)); cbn; split; split;
      try (intros H; try discriminate; try reflexivity; now elim H).
    + intros _. eexists. eexists. split; [reflexivity | discriminate].
    + intros (r & text & H & _). discriminate H.
  - rewrite firmware_macroAction. unfold Part000.macroAction. cbn.
    rewrite firmware_arrowOperatorMacro, part000_arrowOperatorMacro.
    destruct (keyToggledOn (state event)); cbn; split; split;
      try (intros H; try discriminate; try reflexivity; now elim H).
    + intros _. eexists. eexists. split; [reflexivity | discriminate].
    + intros (r & text & H & _). discriminate H.
Qed.

(** C8: for an id that is neither [MACRO_VERSION_INFO] nor [MACRO_ARROW],
    and any key event, [macroAction] types nothing and returns
    [MACRO_NONE], in both revisions. *)
Theorem unknown_macro_id_is_noop (macro_id : uint8) (event : KeyEvent) :
  macro_id <> MACRO_VERSION_INFO -> macro_id <> MACRO_ARROW ->
  Firmware.macroAction keyToggledOn BUILD_INFORMATION type_result macro_id event
    = (MACRO_NONE, "") /\
  Part000.macroAction keyToggledOn BUILD_INFORMATION type_result macro_id event
    = Value (MACRO_NONE, "").
Proof.
  intros Hv Ha.
  apply Z.eqb_neq in Hv. apply Z.eqb_neq in Ha.
  split.
  - rewrite firmware_macroAction, Hv, Ha. reflexivity.
  - unfold Part000.macroAction. rewrite Hv, Ha. reflexivity.
Qed.

(** The first revision's [macroAction] returns [MACRO_NONE] whatever it is
    given. *)
Lemma firmware_macroAction_returns (macro_id : uint8) (event : KeyEvent) :
  value (Firmware.macroAction keyToggledOn BUILD_INFORMATION type_result macro_id event)
    = MACRO_NONE.
Proof. now rewrite firmware_macroAction. Qed.

(** The second revision's returns except for one of the two macros on a
    state that is not toggled-on. *)
Lemma part000_macroAction_returns (macro_id : uint8) (event : KeyEvent) :
  Part000.macroAction keyToggledOn BUILD_INFORMATION type_result macro_id event
    = NoValue <->
  (macro_id = MACRO_VERSION_INFO \/ macro_id = MACRO_ARROW) /\
  keyToggledOn (state event) = false.
Proof.
  unfold Part000.macroAction.
  destruct (macro_id =? MACRO_VERSION_INFO)%Z eqn:H0.
  - apply Z.eqb_eq in H0. rewrite part000_versionInfoMacro.
    destruct (keyToggledOn (state event)); split; try discriminate; auto.
    intros [_ H]. discriminate H.
  - apply Z.eqb_neq in H0. destruct (macro_id =? MACRO_ARROW)%Z eqn:H1.
    + apply Z.eqb_eq in H1. rewrite part000_arrowOperatorMacro.
      destruct (keyToggledOn (state event)); split; try discriminate; auto.
      intros [_ H]. discriminate H.
    + apply Z.eqb_neq in H1. split; [discriminate|]. intros [[H | H] _]; contradiction.
Qed.

End MacroCode.

(** An id outside the enum, with a key that has just gone down. *)
Lemma unknown_macro_id_is_noop_witness :
  2%Z <> MACRO_VERSION_INFO /\ 2%Z <> MACRO_ARROW /\
  (Firmware.macroAction Keyswitch.keyToggledOn "v1::v2" MACRO_NONE 2%Z
     {| state := Keyswitch.TOGGLED_ON |} = (MACRO_NONE, "") /\
   Part000.macroAction Keyswitch.keyToggledOn "v1::v2" MACRO_NONE 2%Z
     {| state := Keyswitch.TOGGLED_ON |} = Value (MACRO_NONE, "")).
Proof.
  split; [discriminate|]. split; [discriminate|].
  apply (unknown_macro_id_is_noop Keyswitch.keyToggledOn "v1::v2" MACRO_NONE 2%Z
           {| state := Keyswitch.TOGGLED_ON |}); discriminate.
Defined.

(** Under the reading of the state byte in [Keyswitch], a held state and a
    toggled-off state are not toggled-on ones. *)
Lemma held_or_released_is_not_toggled_on (keyState : uint8) :
  Keyswitch.keyIsHeld keyState = true \/ Keyswitch.keyToggledOff keyState = true ->
  Keyswitch.keyToggledOn keyState = false.
Proof.
  unfold Keyswitch.keyIsHeld, Keyswitch.keyToggledOff, Keyswitch.keyToggledOn.
  destruct (Keyswitch.keyIsPressed keyState), (Keyswitch.keyWasPressed keyState);
    simpl; intuition discriminate.
Qed.

(** C10, on [src/unnamed/part_000]: for a key just released (state 1) the
    version macro's case of [macroAction] returns no value, and so does the
    arrow macro's case; the same holds for a held key (state 3), whatever the
    build string and whatever [Macros.type] hands back. The dispatch of
    [src/Model100-Firmware.ino] returns [MACRO_NONE] on the same inputs,
    having typed nothing. *)
Theorem part000_macro_returns_no_value (BUILD_INFORMATION : string) (type_result : macro_ptr) :
  Part000.macroAction Keyswitch.keyToggledOn BUILD_INFORMATION type_result
    MACRO_VERSION_INFO {| state := Keyswitch.TOGGLED_OFF |} = NoValue /\
  Part000.macroAction Keyswitch.keyToggledOn BUILD_INFORMATION type_result
    MACRO_ARROW {| state := Keyswitch.TOGGLED_OFF |} = NoValue /\
  Part000.macroAction Keyswitch.keyToggledOn BUILD_INFORMATION type_result
    MACRO_VERSION_INFO {| state := Keyswitch.HELD |} = NoValue /\
  Firmware.macroAction Keyswitch.keyToggledOn BUILD_INFORMATION type_result
    MACRO_VERSION_INFO {| state := Keyswitch.TOGGLED_OFF |} = (MACRO_NONE, "") /\
  Firmware.macroAction Keyswitch.keyToggledOn BUILD_INFORMATION type_result
    MACRO_ARROW {| state := Keyswitch.TOGGLED_OFF |} = (MACRO_NONE, "").
Proof.
  split; [|split; [|split; [|split]]].
  - unfold Part000.macroAction, Part000.versionInfoMacro. cbn. reflexivity.
  - unfold Part000.macroAction, Part000.arrowOperatorMacro. cbn. reflexivity.
  - unfold Part000.macroAction, Part000.versionInfoMacro. cbn. reflexivity.
  - unfold Firmware.macroAction, Firmware.versionInfoMacro. cbn. reflexivity.
  - unfold Firmware.macroAction, Firmware.arrowOperatorMacro. cbn. reflexivity.
Qed.

(** ** The build version string *)

Lemma string_append_assoc (s1 s2 s3 : string) : (s1 ++ s2) ++ s3 = s1 ++ s2 ++ s3.
Proof.
  induction s1 as [|c s1 IH]; simpl; [reflexivity | now rewrite IH].
Qed.

Lemma any_char_append (p : ascii -> bool) (s1 s2 : string) :
  Build.any_char p (s1 ++ s2) = Build.any_char p s1 || Build.any_char p s2.
Proof.
  induction s1 as [|c s1 IH]; simpl; [reflexivity|].
  now rewrite IH, orb_assoc.
Qed.

Lemma any_char_weaken (p q : ascii -> bool) (s : string) :
  (forall c, p c = true -> q c = true) ->
  Build.any_char q s = false -> Build.any_char p s = false.
Proof.
  intros Hpq. induction s as [|c s IH]; simpl; [reflexivity|].
  intros H. apply orb_false_iff in H. destruct H as [Hc Hs].
  rewrite (IH Hs), orb_false_r.
  destruct (p c) eqn:Hp; [|reflexivity]. now rewrite (Hpq c Hp) in Hc.
Qed.

(** What a name git can print is free of. *)
Lemma git_name_chars (s : string) :
  Build.git_name s = true ->
  Build.any_char Build.is_blank s = false /\
  Build.any_char Build.is_wildcard s = false /\
  Build.any_char Build.is_unread s = false /\
  Build.any_char Build.is_mark s = false.
Proof.
  unfold Build.git_name. intros H. apply negb_true_iff in H.
  repeat split; (eapply any_char_weaken; [|exact H]); intros c Hc; cbv beta;
    rewrite Hc; rewrite ?orb_true_r; reflexivity.
Qed.

(** A value without a blank is one field, or none when it is empty. *)
Lemma fields_without_blank (s current : string) :
  Build.any_char Build.is_blank s = false ->
  Build.fields_from s current =
    if String.eqb (current ++ s) "" then [] else [current ++ s].
Proof.
  revert current. induction s as [|c s IH]; intros current Hs; simpl in *.
  - rewrite append_empty_r. destruct (String.eqb current ""); reflexivity.
  - apply orb_false_iff in Hs. destruct Hs as [Hc Hs].
    rewrite Hc, (IH _ Hs), string_append_assoc. reflexivity.
Qed.

(** Unquoted, [echo] prints a value without blank, bracket or backslash as
    it is when the value has no wildcard, or has one and matches no file
    name. *)
Lemma echo_unquoted_unchanged (names : list string) (value : string) :
  Build.any_char Build.is_blank value = false ->
  Build.any_char Build.is_unread value = false ->
  Build.any_char Build.is_wildcard value = false \/
    Build.expansion names value = [] ->
  Build.echo_unquoted names value = Some value.
Proof.
  intros Hb Hu Hw. unfold Build.echo_unquoted. rewrite Hu.
  rewrite (fields_without_blank value "" Hb). cbn [append].
  destruct (String.eqb value "") eqn:He.
  - apply String.eqb_eq in He. now subst.
  - cbn [flat_map]. unfold Build.expand_field.
    destruct (Build.any_char Build.is_wildcard value) eqn:Hwild.
    + destruct Hw as [Hw | Hw]; [discriminate|]. rewrite Hw. reflexivity.
    + reflexivity.
Qed.

(** In a directory where the value is printed unchanged, [version] gives the
    name with a star after it exactly when [git diff-index] did not exit
    with 0. *)
Lemma version_unchanged (cwd dir : Build.WorkTree) :
  Build.prints_unchanged dir = true ->
  Build.version cwd (Some dir) =
    Some (Build.spec_half (Build.git_describe dir) (Build.starred dir)).
Proof.
  unfold Build.prints_unchanged, Build.version, Build.spec_half, Build.starred.
  intros H. apply andb_true_iff in H. destruct H as [Hname Hexp].
  destruct (git_name_chars _ Hname) as (Hb & Hw & Hu & _).
  destruct (Nat.eqb (Build.git_diff_index dir) 0); cbn [negb] in *.
  - rewrite append_empty_r. now apply echo_unquoted_unchanged; auto.
  - apply echo_unquoted_unchanged.
    + rewrite any_char_append, Hb. reflexivity.
    + rewrite any_char_append, Hu. reflexivity.
    + right. cbn [orb] in Hexp.
      destruct (Build.expansion (Build.names dir) (Build.git_describe dir ++ "*"));
        [reflexivity | discriminate].
Qed.

(** When both directories print their values unchanged and the [cd]
    succeeds, the version string is the one the specification describes,
    with the star of each half standing for a non-zero exit status of
    [git diff-index] in its directory. *)
Lemma build_version_format (cwd KALEIDOSCOPE_DIR : Build.WorkTree) :
  Build.prints_unchanged cwd = true ->
  Build.prints_unchanged KALEIDOSCOPE_DIR = true ->
  Build.build_version cwd (Some KALEIDOSCOPE_DIR) =
    Some (Build.spec_version_string
            (Build.git_describe KALEIDOSCOPE_DIR) (Build.starred KALEIDOSCOPE_DIR)
            (Build.git_describe cwd) (Build.starred cwd)).
Proof.
  intros Hc Hk. unfold Build.build_version.
  rewrite (version_unchanged cwd KALEIDOSCOPE_DIR Hk), (version_unchanged cwd cwd Hc).
  reflexivity.
Qed.

(** C7, on the build script: with uncommitted changes in the keymap's
    directory, the second half of the version string is what the shell
    expands the starred name to. In a keymap git has no tag to describe by,
    the lone star becomes the list of the directory's files; in a keymap
    tagged v2.1 that holds a file v2.1-notes.md, the starred name becomes
    that file's name. The specification's strings for the two are the names
    with a star. In a keymap tagged v2.1 without such a file the string is
    as specified. *)
Theorem build_version_expands_the_star :
  Build.build_version Build.untagged_dirty_keymap (Some Build.clean_kaleidoscope)
    = Some "v1.99.8-12-gabc1234::Model100-Firmware.ino build.sh" /\
  Build.spec_version_string "v1.99.8-12-gabc1234" false "" true
    = "v1.99.8-12-gabc1234::*" /\
  Build.build_version Build.dirty_keymap_with_notes (Some Build.clean_kaleidoscope)
    = Some "v1.99.8-12-gabc1234::v2.1-notes.md" /\
  Build.spec_version_string "v1.99.8-12-gabc1234" false "v2.1" true
    = "v1.99.8-12-gabc1234::v2.1*" /\
  Build.build_version Build.dirty_keymap (Some Build.clean_kaleidoscope)
    = Some "v1.99.8-12-gabc1234::v2.1*".
Proof.
  split; [|split; [|split; [|split]]].
  - vm_compute. reflexivity.
  - reflexivity.
  - vm_compute. reflexivity.
  - reflexivity.
  - apply (build_version_format Build.dirty_keymap Build.clean_kaleidoscope);
      reflexivity.
Qed.

(** When the [cd] to the framework's directory fails, both halves of the
    version string describe the keymap's directory. *)
Lemma cd_failure_describes_the_keymap (cwd : Build.WorkTree) :
  Build.build_version cwd None = Build.build_version cwd (Some cwd).
Proof. reflexivity. Qed.

(** The star stands for the exit status, whatever made it non-zero: a
    directory where [git diff-index] fails (status 128) is starred like one
    with differences (status 1). *)
Lemma star_follows_exit_status (cwd dir : Build.WorkTree) (status : nat) :
  status <> 0 ->
  Build.version cwd
    (Some {| Build.git_describe := Build.git_describe dir;
             Build.git_diff_index := status;
             Build.names := Build.names dir |})
  = Build.version cwd
      (Some {| Build.git_describe := Build.git_describe dir;
               Build.git_diff_index := 1;
               Build.names := Build.names dir |}).
Proof.
  intros Hs. unfold Build.version. cbn.
  destruct status as [|status]; [now elim Hs | reflexivity].
Qed.

(** * Further properties of the sketch and the build script *)

(** ** Entries of a table *)

Lemma indexed_nth_error {A : Type} (l : list A) (start n : nat) (x : A) :
  nth_error l n = Some x -> In (start + n, x) (indexed start l).
Proof.
  unfold indexed. revert start n.
  induction l as [|y l IH]; intros start n Hn.
  - destruct n; discriminate.
  - destruct n as [|n]; simpl in *.
    + injection Hn as ->. left. now rewrite Nat.add_0_r.
    + right. rewrite <- Nat.add_succ_comm. now apply IH.
Qed.

Lemma key_at_all_entries (keymaps : list Layer) (layer slot : nat) (k : Key) :
  key_at keymaps layer slot = Some k -> In (layer, slot, k) (all_entries keymaps).
Proof.
  unfold key_at, all_entries. intros H.
  destruct (nth_error keymaps layer) as [keys|] eqn:Hl; [|discriminate].
  apply in_flat_map. exists (layer, keys). split.
  - exact (indexed_nth_error keymaps 0 layer keys Hl).
  - apply in_map_iff. exists (slot, k). split; [reflexivity|].
    exact (indexed_nth_error keys 0 slot k H).
Qed.

(** A check that every entry of a table passes holds of whatever [key_at]
    finds. *)
Lemma every_entry (keymaps : list Layer) (check : nat * nat * Key -> bool) :
  forallb check (all_entries keymaps) = true ->
  forall layer slot k,
    key_at keymaps layer slot = Some k -> check (layer, slot, k) = true.
Proof.
  intros H layer slot k Hk. rewrite forallb_forall in H.
  apply H. now apply key_at_all_entries.
Qed.

(** ** Macro keys and the macros *)

(** The check behind [keymap_macro_ids]: a macro key names one of the two
    macros. *)
Lemma keymap_macro_ids (layer slot : nat) (id : uint8) :
  key_at Firmware.KEYMAPS layer slot = Some (M id) \/
  key_at Part000.KEYMAPS layer slot = Some (M id) ->
  id = MACRO_VERSION_INFO \/ id = MACRO_ARROW.
Proof.
  assert (Hcheck : forall km, km = Firmware.KEYMAPS \/ km = Part000.KEYMAPS ->
            key_at km layer slot = Some (M id) ->
            ((id =? MACRO_VERSION_INFO) || (id =? MACRO_ARROW))%Z = true).
  { intros km Hkm Hk.
    apply (every_entry km
             (fun '(_, _, k) =>
                match k with
                | M i => ((i =? MACRO_VERSION_INFO) || (i =? MACRO_ARROW))%Z
                | _ => true
                end)) in Hk; [exact Hk|].
    destruct Hkm as [-> | ->]; vm_compute; reflexivity. }
  intros [H | H]; eapply Hcheck in H; auto;
    apply orb_true_iff in H; destruct H as [H | H]; apply Z.eqb_eq in H; auto.
Qed.

Section MacroKeys.

Variable keyToggledOn : uint8 -> bool.
Variable BUILD_INFORMATION : string.
Variable type_result : macro_ptr.

(** The macro keys of the keymap and the cases of [macroAction] are the same
    ids: for a key going down, [macroAction] types something for an id
    exactly when some layer binds a key to [M(id)]. This holds in both
    revisions. *)
Theorem macro_keys_are_the_handled_ids (id : uint8) (event : KeyEvent) :
  keyToggledOn (state event) = true ->
  ((exists layer slot, key_at Firmware.KEYMAPS layer slot = Some (M id)) <->
   typed (Firmware.macroAction keyToggledOn BUILD_INFORMATION type_result id event)
     <> "") /\
  ((exists layer slot, key_at Part000.KEYMAPS layer slot = Some (M id)) <->
   (exists r text,
       Part000.macroAction keyToggledOn BUILD_INFORMATION type_result id event
         = Value (r, text) /\ text <> "")).
Proof.
  intros Hon.
  assert (Hbound : id = MACRO_VERSION_INFO \/ id = MACRO_ARROW ->
            (exists layer slot, key_at Firmware.KEYMAPS layer slot = Some (M id)) /\
            (exists layer slot, key_at Part000.KEYMAPS layer slot = Some (M id))).
  { intros [-> | ->]; split;
      first [ now exists SYMBOL, 6 | now exists SYMBOL, 56 ]. }
  split; split.
  - intros (layer & slot & Hk).
    apply (macro_types_iff_toggled_on keyToggledOn BUILD_INFORMATION type_result);
      [|exact Hon].
    apply (keymap_macro_ids layer slot). now left.
  - intros Hne. apply Hbound.
    rewrite firmware_macroAction in Hne. cbn [typed snd] in Hne.
    destruct (id =? MACRO_VERSION_INFO)%Z eqn:H0; [apply Z.eqb_eq in H0; auto|].
    destruct (id =? MACRO_ARROW)%Z eqn:H1; [apply Z.eqb_eq in H1; auto|].
    now elim Hne.
  - intros (layer & slot & Hk).
    apply (macro_types_iff_toggled_on keyToggledOn BUILD_INFORMATION type_result);
      [|exact Hon].
    apply (keymap_macro_ids layer slot). now right.
  - intros (r & text & Hret & Hne). apply Hbound.
    unfold Part000.macroAction in Hret.
    destruct (id =? MACRO_VERSION_INFO)%Z eqn:H0; [apply Z.eqb_eq in H0; auto|].
    destruct (id =? MACRO_ARROW)%Z eqn:H1; [apply Z.eqb_eq in H1; auto|].
    injection Hret as _ <-. now elim Hne.
Qed.


End MacroKeys.

(** The version macro's key of the [SYMBOL] layer, going down. *)
Lemma macro_keys_are_the_handled_ids_witness :
  Keyswitch.keyToggledOn (state {| state := Keyswitch.TOGGLED_ON |}) = true /\
  (((exists layer slot, key_at Firmware.KEYMAPS layer slot = Some (M MACRO_VERSION_INFO)) <->
    typed (Firmware.macroAction Keyswitch.keyToggledOn "v1::v2" MACRO_NONE
             MACRO_VERSION_INFO {| state := Keyswitch.TOGGLED_ON |}) <> "") /\
   ((exists layer slot, key_at Part000.KEYMAPS layer slot = Some (M MACRO_VERSION_INFO)) <->
    (exists r text,
        Part000.macroAction Keyswitch.keyToggledOn "v1::v2" MACRO_NONE
          MACRO_VERSION_INFO {| state := Keyswitch.TOGGLED_ON |}
          = Value (r, text) /\ text <> ""))).
Proof.
  split; [reflexivity|].
  apply (macro_keys_are_the_handled_ids Keyswitch.keyToggledOn "v1::v2" MACRO_NONE
           MACRO_VERSION_INFO {| state := Keyswitch.TOGGLED_ON |}).
  reflexivity.
Defined.


(** ** Layer-shift keys *)

(** Every layer-shift key stays what it is on the layer it shifts to: a
    [ShiftToLayer] entry stands on [PRIMARY], its target is [SYMBOL] or
    [MOUSE], and the target layer is Transparent at the entry's slot, so the
    held key is not rebound by the layer it brought up. This holds in both revisions. *)
Theorem shift_keys_stay_on_their_layer (layer slot target : nat) :
  key_at Firmware.KEYMAPS layer slot = Some (ShiftToLayer target) \/
  key_at Part000.KEYMAPS layer slot = Some (ShiftToLayer target) ->
  layer = PRIMARY /\
  (target = SYMBOL \/ target = MOUSE) /\
  key_at Firmware.KEYMAPS target slot = Some ___ /\
  key_at Part000.KEYMAPS target slot = Some ___.
Proof.
  assert (Hsame : forall t s, t = SYMBOL \/ t = MOUSE ->
            key_at Firmware.KEYMAPS t s = key_at Part000.KEYMAPS t s).
  { intros t s [-> | ->]; reflexivity. }
  assert (Hcheck : forall km, km = Firmware.KEYMAPS \/ km = Part000.KEYMAPS ->
            key_at km layer slot = Some (ShiftToLayer target) ->
            layer = PRIMARY /\ (target = SYMBOL \/ target = MOUSE) /\
            key_at km target slot = Some ___).
  { intros km Hkm Hk.
    apply (every_entry km (shift_key_ok km)) in Hk.
    - cbn [shift_key_ok] in Hk.
      apply andb_true_iff in Hk. destruct Hk as [Hk Ht].
      apply andb_true_iff in Hk. destruct Hk as [Hl Htarget].
      apply Nat.eqb_eq in Hl. apply orb_true_iff in Htarget.
      rewrite !Nat.eqb_eq in Htarget.
      split; [assumption|]. split; [assumption|].
      destruct (key_at km target slot) as [[]|]; try discriminate. reflexivity.
    - destruct Hkm as [-> | ->]; vm_compute; reflexivity. }
  intros [H | H].
  - destruct (Hcheck _ (or_introl eq_refl) H) as (Hl & Ht & Hk).
    repeat split; try assumption. now rewrite <- Hsame.
  - destruct (Hcheck _ (or_intror eq_refl) H) as (Hl & Ht & Hk).
    repeat split; try assumption. now rewrite Hsame.
Qed.

(** The key that shifts to [MOUSE]: first key of the right hand's last row. *)
Lemma shift_keys_stay_on_their_layer_witness :
  (key_at Firmware.KEYMAPS PRIMARY 52 = Some (ShiftToLayer MOUSE) \/
   key_at Part000.KEYMAPS PRIMARY 52 = Some (ShiftToLayer MOUSE)) /\
  (PRIMARY = PRIMARY /\
   (MOUSE = SYMBOL \/ MOUSE = MOUSE) /\
   key_at Firmware.KEYMAPS MOUSE 52 = Some ___ /\
   key_at Part000.KEYMAPS MOUSE 52 = Some ___).
Proof.
  split.
  - left. reflexivity.
  - apply (shift_keys_stay_on_their_layer PRIMARY 52 MOUSE). left. reflexivity.
Defined.

(** It does not stay so on the other layers: with [SYMBOL] up, the key that
    shifts to [MOUSE] is the left GUI key. *)
Example mouse_shift_rebound_on_symbol :
  key_at Firmware.KEYMAPS PRIMARY 52 = Some (ShiftToLayer MOUSE) /\
  key_at Firmware.KEYMAPS SYMBOL 52 = Some (Key_ "LeftGui").
Proof. split; reflexivity. Qed.

(** ** The two revisions of the keymap *)

Lemma nth_error_beyond {A : Type} (l : list A) (n : nat) :
  List.length l <= n -> nth_error l n = None.
Proof. apply nth_error_None. Qed.

(** The keymaps of the two revisions hold the same entry at every layer and
    slot but one: the last key of the left hand's second row on [PRIMARY]
    (slot 13), which is [Key_LEDEffectNext] in [src/Model100-Firmware.ino]
    and [___] in [src/unnamed/part_000]. Outside the table neither has an
    entry. *)
Theorem revisions_differ_in_one_key (layer slot : nat) :
  key_at Firmware.KEYMAPS layer slot = key_at Part000.KEYMAPS layer slot <->
  (layer, slot) <> (PRIMARY, 13).
Proof.
  split.
  - intros Heq Hpair. injection Hpair as -> ->. discriminate Heq.
  - intros Hne.
    destruct layer as [|[|[|layer]]]; try reflexivity.
    unfold key_at, Firmware.KEYMAPS, Part000.KEYMAPS. cbn [nth_error].
    destruct (Nat.eq_dec slot 13) as [-> | Hs]; [now elim Hne|].
    destruct (Nat.lt_ge_cases slot 64) as [Hlt | Hge].
    + clear Hne.
      do 64 (destruct slot as [|slot]; [try reflexivity; now elim Hs|]).
      lia.
    + rewrite !nth_error_beyond; [reflexivity | |]; vm_compute; exact Hge.
Qed.

(** ** Host power management *)

(** Over any sequence of power events the handler makes one [LEDControl]
    call per event, in order: [disable] for a [Suspend] or a [Sleep] and
    [enable] for a [Resume]. So the LEDs are enabled only in answer to a
    [Resume], disabled only in answer to a [Suspend] or a [Sleep], and the
    last call made is the one of the last event. *)
Theorem power_events_calls (events : list Callbacks.Event) :
  List.length (Callbacks.handle_power_events events) = List.length events /\
  (In Callbacks.LEDControl_enable (Callbacks.handle_power_events events) <->
   In Callbacks.Resume events) /\
  (In Callbacks.LEDControl_disable (Callbacks.handle_power_events events) <->
   In Callbacks.Suspend events \/ In Callbacks.Sleep events) /\
  (forall event,
      Callbacks.handle_power_events (events ++ [event])%list =
        (Callbacks.handle_power_events events ++
         [match event with
          | Callbacks.Resume => Callbacks.LEDControl_enable
          | _ => Callbacks.LEDControl_disable
          end])%list).
Proof.
  unfold Callbacks.handle_power_events.
  split; [|split; [|split]].
  - induction events as [|e events IH]; [reflexivity|].
    destruct e; simpl; now rewrite IH.
  - induction events as [|e events IH]; [simpl; tauto|].
    destruct e; simpl; rewrite IH; intuition discriminate.
  - induction events as [|e events IH]; [simpl; tauto|].
    destruct e; simpl; rewrite IH; intuition discriminate.
  - intros event. rewrite flat_map_app. destruct event; reflexivity.
Qed.

(** ** Plugins, setup and the magic combos *)

Lemma nodup_fixpoint_NoDup (l : list string) :
  nodup string_dec l = l -> NoDup l.
Proof.
  intros H. rewrite <- H. apply NoDup_nodup.
Qed.

(** What [unregistered_objects] leaves out is registered. *)
Lemma unregistered_objects_none (registered : list string) (stmts : list Statement) :
  unregistered_objects registered stmts = [] ->
  forall s, In s stmts ->
    object_of s = "Kaleidoscope" \/ In (object_of s) registered.
Proof.
  unfold unregistered_objects. intros Hnone s Hs.
  destruct (String.eqb (object_of s) "Kaleidoscope") eqn:Hk.
  - left. now apply String.eqb_eq.
  - right.
    destruct (existsb (String.eqb (object_of s)) registered) eqn:He.
    + apply existsb_exists in He. destruct He as [p [Hin Hp]].
      apply String.eqb_eq in Hp. now subst.
    + assert (Hin : In (object_of s)
                (filter (fun object =>
                           negb (String.eqb object "Kaleidoscope") &&
                           negb (existsb (String.eqb object) registered))
                        (map object_of stmts))).
      { apply filter_In. split; [now apply in_map|]. now rewrite Hk, He. }
      rewrite Hnone in Hin. destruct Hin.
Qed.

(** No plugin is registered twice. In [src/Model100-Firmware.ino] every
    object that [setup], the power management handler or a magic combo's
    action acts on is a registered plugin (or [Kaleidoscope] itself), and so
    is every solid colour it defines; in [src/unnamed/part_000] the same
    holds of all of them but [LEDOff], which [setup] activates and
    [KALEIDOSCOPE_INIT_PLUGINS] does not list. *)
Theorem plugins_used_are_registered
    (event : Callbacks.Event) (combo_index : uint8) :
  NoDup FirmwareConfig.KALEIDOSCOPE_INIT_PLUGINS /\
  NoDup Part000Config.KALEIDOSCOPE_INIT_PLUGINS /\
  unregistered_objects FirmwareConfig.KALEIDOSCOPE_INIT_PLUGINS
    (FirmwareConfig.setup ++
     Callbacks.hostPowerManagementEventHandler event ++
     Callbacks.toggleKeyboardProtocol combo_index ++
     Callbacks.enterHardwareTestMode combo_index)%list = [] /\
  incl (map fst FirmwareConfig.solid_colors) FirmwareConfig.KALEIDOSCOPE_INIT_PLUGINS /\
  unregistered_objects Part000Config.KALEIDOSCOPE_INIT_PLUGINS
    (Part000Config.setup ++
     Callbacks.hostPowerManagementEventHandler event ++
     Callbacks.toggleKeyboardProtocol combo_index ++
     Callbacks.enterHardwareTestMode combo_index)%list = ["LEDOff"].
Proof.
  split; [|split; [|split; [|split]]].
  - apply nodup_fixpoint_NoDup. vm_compute. reflexivity.
  - apply nodup_fixpoint_NoDup. vm_compute. reflexivity.
  - destruct event; vm_compute; reflexivity.
  - intros name Hname. simpl in Hname.
    repeat (destruct Hname as [<- | Hname]; [simpl; tauto|]). destruct Hname.
  - destruct event; vm_compute; reflexivity.
Qed.

(** The magic combos: both revisions register the same two, at the same
    indices. Each has three different keys, among them the key that [setup]
    makes the action key of the hardware test mode; its action does not look
    at the index it is given; and the keys of one combo are never all keys of
    the other, so holding one combo's keys does not hold the other's. *)
Theorem magic_combos_table (c : Callbacks.MagicCombo) :
  In c FirmwareConfig.USE_MAGIC_COMBOS ->
  Part000Config.USE_MAGIC_COMBOS = map Some FirmwareConfig.USE_MAGIC_COMBOS /\
  NoDup (Callbacks.keys c) /\
  List.length (Callbacks.keys c) = 3 /\
  (forall k, In (Call "HardwareTestMode" "setActionKey" [ArgKey k])
                (FirmwareConfig.setup ++ Part000Config.setup)%list ->
             In k (Callbacks.keys c)) /\
  (forall i j, Callbacks.action c i = Callbacks.action c j) /\
  (forall c', In c' FirmwareConfig.USE_MAGIC_COMBOS ->
              keys_within (Callbacks.keys c) (Callbacks.keys c') = true -> c' = c).
Proof.
  intros Hc.
  assert (Hkey : forall k,
             In (Call "HardwareTestMode" "setActionKey" [ArgKey k])
                (FirmwareConfig.setup ++ Part000Config.setup)%list -> k = R3C6).
  { intros k Hk. simpl in Hk.
    repeat (destruct Hk as [Hk | Hk]; [try discriminate Hk; now injection Hk|]).
    destruct Hk. }
  split; [reflexivity|].
  destruct Hc as [<- | [<- | []]]; cbn [Callbacks.keys Callbacks.action].
  - split; [repeat constructor; simpl; intuition discriminate|].
    split; [reflexivity|]. split; [intros k Hk; rewrite (Hkey k Hk); simpl; tauto|].
    split; [reflexivity|].
    intros c' [<- | [<- | []]] Hw; [reflexivity | discriminate Hw].
  - split; [repeat constructor; simpl; intuition discriminate|].
    split; [reflexivity|]. split; [intros k Hk; rewrite (Hkey k Hk); simpl; tauto|].
    split; [reflexivity|].
    intros c' [<- | [<- | []]] Hw; [discriminate Hw | reflexivity].
Qed.

(** The combo that toggles the keyboard protocol. *)
Lemma magic_combos_table_witness :
  In {| Callbacks.action := Callbacks.toggleKeyboardProtocol;
        Callbacks.keys := [R3C6; R2C6; R3C7] |} FirmwareConfig.USE_MAGIC_COMBOS /\
  NoDup [R3C6; R2C6; R3C7].
Proof.
  split.
  - left. reflexivity.
  - apply (magic_combos_table
             {| Callbacks.action := Callbacks.toggleKeyboardProtocol;
                Callbacks.keys := [R3C6; R2C6; R3C7] |}).
    left. reflexivity.
Defined.

(** ** Reading a version string back *)









(** The conditions are needed. With uncommitted changes and a file
    v2.1-notes.md, the keymap tagged v2.1 gets the version of a clean tree
    named v2.1-notes.md; and names with colons in them give one string for
    different pairs of trees. *)
Example versions_collide :
  Build.version Build.dirty_keymap_with_notes (Some Build.dirty_keymap_with_notes)
  = Build.version Build.dirty_keymap_with_notes
      (Some {| Build.git_describe := "v2.1-notes.md";
               Build.git_diff_index := 0;
               Build.names := [".git"; "build.sh"] |}) /\
  Build.spec_version_string "a::b" false "c" false
  = Build.spec_version_string "a" false "b::c" false.
Proof. split; vm_compute; reflexivity. Qed.
